(** * Newton-Raphson root finder and the Rachford-Rice flash model

    A shallow embedding of [Python/newton.py]: the generic solver
    [newton_raphson], the two model functions [rachford_rice] and
    [d_rachford_rice], the module data [z], [K], [V0] and the driver call
    [V_solution].

    Python numbers are duck typed: the solver only needs [-], [/], [abs] and
    [<] of whatever its callables return.  The embedding therefore takes the
    arithmetic as an interface ([Number]) and gives it two instances:
    - [float_Number]: IEEE 754 binary64, the arithmetic CPython runs the
      file with;
    - [R_Number]: the real numbers, the arithmetic the specification
      reasons in.
    Callables may raise and may have effects, so they live in a state and
    exception monad over an arbitrary world [W]. *)

From Stdlib Require Import ZArith List String Bool Lia.
From Stdlib Require Import DecimalString.
From Stdlib Require DecimalZ.
From Stdlib Require Import Floats Uint63.
From Stdlib Require Import Reals Lra.
Import ListNotations.

Set Warnings "-inexact-float".

(** ** Exceptions and the evaluation monad *)

(** The Python exceptions the file can raise, by their class. *)
Inductive exn : Type :=
| ValueError (msg : string)
| ZeroDivisionError
| OverflowError
| IndexError.

(** A pure expression that may raise. *)
Definition result (A : Type) : Type := (exn + A)%type.

Definition bind_result {A B : Type} (r : result A) (k : A -> result B) : result B :=
  match r with
  | inl e => inl e
  | inr a => k a
  end.

(** A computation over the world [W]: it may raise and may change the
    world; the world it leaves is returned in both cases, as a Python
    exception does not undo the effects that came before it. *)
Definition py (W A : Type) : Type := W -> result A * W.

Definition ret {W A : Type} (a : A) : py W A := fun w => (inr a, w).

Definition raise {W A : Type} (e : exn) : py W A := fun w => (inl e, w).

Definition bind {W A B : Type} (c : py W A) (k : A -> py W B) : py W B :=
  fun w =>
    match c w with
    | (inl e, w') => (inl e, w')
    | (inr a, w') => k a w'
    end.

Definition lift {W A : Type} (r : result A) : py W A := fun w => (r, w).

Declare Scope py_scope.
Delimit Scope py_scope with py.
Notation "x <- c ;; k" := (bind c (fun x => k))
  (at level 61, c at next level, right associativity) : py_scope.

Declare Scope result_scope.
Delimit Scope result_scope with result.
Notation "x <- c ;; k" := (bind_result c (fun x => k))
  (at level 61, c at next level, right associativity) : result_scope.

(** ** The numeric interface *)

(** What the file asks of a number.  [of_int] is the coercion of a Python
    [int] that meets a number in an operation, [of_decimal m e] the literal
    written [m]e[e] (so [of_decimal 1 (-10)] is [1e-10] and
    [of_decimal 42 (-1)] is [4.2]), [pow2 x] is [x ** 2].  Division and
    power are the two operations that can raise. *)
Class Number (T : Type) : Type := {
  of_int : Z -> T;
  of_decimal : Z -> Z -> T;
  add : T -> T -> T;
  sub : T -> T -> T;
  mul : T -> T -> T;
  neg : T -> T;
  div : T -> T -> result T;
  pow2 : T -> result T;
  abs : T -> T;
  ltb : T -> T -> bool
}.

(** ** The messages of the two [ValueError]s *)

Definition derivative_msg : string :=
  "La derivada es demasiado pequeña, posible división por cero.".

(** ["... {} iteraciones.".format(max_iter)] *)
Definition convergence_msg (max_iter : Z) : string :=
  ("No se alcanzó la convergencia después de "
     ++ NilZero.string_of_int (Z.to_int max_iter)
     ++ " iteraciones.")%string.

(** The two failure kinds of the specification are both [ValueError]s in
    the source, told apart by their message. *)
Definition DerivativeTooSmall : exn := ValueError derivative_msg.

Definition ConvergenceFailure (max_iter : Z) : exn :=
  ValueError (convergence_msg max_iter).

(** ** The solver *)

Section Solver.
Context {T : Type} {num : Number T} {W : Type}.

(** A Python callable of one number. *)
Definition callable : Type := T -> py W T.

(** The literal [1e-10] of the guard on the derivative. *)
Definition derivative_floor : T := of_decimal 1 (-10).

(** The default values of [tol] and [max_iter]. *)
Definition tol_default : T := of_decimal 1 (-6).

Definition max_iter_default : Z := 100.

(** [for i in range(max_iter): ...] with [fuel] iterations left, then the
    [raise] that follows the loop. *)
Fixpoint newton_raphson_loop (func dfunc : callable) (tol : T) (max_iter : Z)
    (fuel : nat) (x : T) : py W T :=
  match fuel with
  | O => raise (ConvergenceFailure max_iter)
  | S fuel' =>
      (f_x <- func x ;;
       df_x <- dfunc x ;;
       if ltb (abs df_x) derivative_floor then raise DerivativeTooSmall
       else
         q <- lift (div f_x df_x) ;;
         let x_new := sub x q in
         if ltb (abs (sub x_new x)) tol then ret x_new
         else newton_raphson_loop func dfunc tol max_iter fuel' x_new)%py
  end.

(** [newton_raphson(func, dfunc, x0, tol=1e-6, max_iter=100)]; an omitted
    argument is [None].  [range(max_iter)] is empty when [max_iter <= 0]. *)
Definition newton_raphson (func dfunc : callable) (x0 : T)
    (tol : option T) (max_iter : option Z) : py W T :=
  let tol := match tol with Some t => t | None => tol_default end in
  let max_iter := match max_iter with Some n => n | None => max_iter_default end in
  newton_raphson_loop func dfunc tol max_iter (Z.to_nat max_iter) x0.

(** A callable without effects, given by the value it returns or the
    exception it raises. *)
Definition pure_callable (g : T -> result T) : callable := fun x => lift (g x).

End Solver.

(** ** The Rachford-Rice model *)

Section Model.
Context {T : Type} {num : Number T}.

(** [l[i]] for [0 <= i]. *)
Definition getitem (l : list T) (i : nat) : result T :=
  match nth_error l i with
  | Some v => inr v
  | None => inl IndexError
  end.

(** [sum(g(i) for i in indices)] continued from the partial sum [acc]: the
    generator is consumed from the left, each term is added to the partial
    sum with [+], and the first term that raises ends the sum.  (For floats
    CPython 3.12 and later carry a compensation term besides; the plain
    left-to-right sum is the one the specification fixes.) *)
Fixpoint sum_from (g : nat -> result T) (indices : list nat) (acc : T) : result T :=
  match indices with
  | [] => inr acc
  | i :: rest => (t <- g i ;; sum_from g rest (add acc t))%result
  end.

(** [sum(g(i) for i in range(n))]; [sum] starts from the integer [0]. *)
Definition sum_range (g : nat -> result T) (n : nat) : result T :=
  sum_from g (seq 0 n) (of_int 0).

(** [z[i] * (K[i] - 1) / (1 + V * (K[i] - 1))] *)
Definition rachford_rice_term (z K : list T) (V : T) (i : nat) : result T :=
  (z_i <- getitem z i ;;
   K_i <- getitem K i ;;
   let numerator := mul z_i (sub K_i (of_int 1)) in
   K_i' <- getitem K i ;;
   div numerator (add (of_int 1) (mul V (sub K_i' (of_int 1)))))%result.

(** [def rachford_rice(V)], with the module's [z] and [K] as arguments. *)
Definition rachford_rice (z K : list T) (V : T) : result T :=
  sum_range (rachford_rice_term z K V) (List.length z).

(** [-z[i] * (K[i] - 1)**2 / (1 + V * (K[i] - 1))**2] *)
Definition d_rachford_rice_term (z K : list T) (V : T) (i : nat) : result T :=
  (z_i <- getitem z i ;;
   K_i <- getitem K i ;;
   p <- pow2 (sub K_i (of_int 1)) ;;
   let numerator := mul (neg z_i) p in
   K_i' <- getitem K i ;;
   d <- pow2 (add (of_int 1) (mul V (sub K_i' (of_int 1)))) ;;
   div numerator d)%result.

(** [def d_rachford_rice(V)] *)
Definition d_rachford_rice (z K : list T) (V : T) : result T :=
  sum_range (d_rachford_rice_term z K V) (List.length z).

(** The data of the module. *)
Definition z : list T :=
  [of_decimal 1 (-1); of_decimal 2 (-1); of_decimal 3 (-1); of_decimal 4 (-1)].

Definition K : list T :=
  [of_decimal 42 (-1); of_decimal 175 (-2); of_decimal 74 (-2); of_decimal 34 (-2)].

Definition V0 : T := of_int 0.

(** [newton_raphson(rachford_rice, d_rachford_rice, V0)] *)
Definition V_solution {W : Type} : py W T :=
  newton_raphson (pure_callable (rachford_rice z K))
                 (pure_callable (d_rachford_rice z K)) V0 None None.

End Model.

(** ** Binary64 arithmetic *)

Module Float64.

(** A Python [int] turned into a [float]: exact for [|n| <= 2^53], which
    covers every integer of the file, and rounded to nearest up to
    [2^63]. *)
Definition of_Z (n : Z) : float :=
  match n with
  | Z0 => PrimFloat.zero
  | Zpos _ => PrimFloat.of_uint63 (Uint63.of_Z n)
  | Zneg p => PrimFloat.opp (PrimFloat.of_uint63 (Uint63.of_Z (Zpos p)))
  end.

(** The double nearest to [m * 10^e].  Both [m] and [10^|e|] are exact
    doubles for the literals of the file, and one correctly rounded
    product or quotient of exact operands is the nearest double. *)
Definition literal (m e : Z) : float :=
  if (0 <=? e)%Z then PrimFloat.mul (of_Z m) (of_Z (10 ^ e))
  else PrimFloat.div (of_Z m) (of_Z (10 ^ (- e))).

(** [x / y] raises [ZeroDivisionError] when [y == 0.0]. *)
Definition truediv (x y : float) : result float :=
  if PrimFloat.eqb y PrimFloat.zero then inl ZeroDivisionError
  else inr (PrimFloat.div x y).

(** [x ** 2]: the square, taken as correctly rounded (the C library's
    [pow] is within an ulp of it); [OverflowError] when a finite [x] has an
    infinite square, while an underflow to zero is silent. *)
Definition square (x : float) : result float :=
  let y := PrimFloat.mul x x in
  if PrimFloat.is_finite x && PrimFloat.is_infinity y then inl OverflowError
  else inr y.

End Float64.

#[export] Instance float_Number : Number float := {
  of_int := Float64.of_Z;
  of_decimal := Float64.literal;
  add := PrimFloat.add;
  sub := PrimFloat.sub;
  mul := PrimFloat.mul;
  neg := PrimFloat.opp;
  div := Float64.truediv;
  pow2 := Float64.square;
  abs := PrimFloat.abs;
  ltb := PrimFloat.ltb
}.

(** The real number a double stands for. *)
Definition SF2R (s : spec_float) : R :=
  match s with
  | S754_finite sign m e =>
      let v := if (0 <=? e)%Z then (IZR (Zpos m) * IZR (2 ^ e))%R
               else (IZR (Zpos m) / IZR (2 ^ (- e)))%R in
      if sign then (- v)%R else v
  | _ => 0%R
  end.

(** The value of a finite double; [0] for an infinity or a NaN. *)
Definition F2R (x : float) : R := SF2R (Prim2SF x).

(** ** Real arithmetic *)

Module Exact.

(** The real number [m * 10^e]. *)
Definition literal (m e : Z) : R :=
  if (0 <=? e)%Z then (IZR m * IZR (10 ^ e))%R else (IZR m / IZR (10 ^ (- e)))%R.

(** [x / y] raises [ZeroDivisionError] when [y == 0]. *)
Definition truediv (x y : R) : result R :=
  if Req_dec_T y 0%R then inl ZeroDivisionError else inr (x / y)%R.

(** [x ** 2] *)
Definition square (x : R) : result R := inr (x * x)%R.

(** [x < y] *)
Definition lt (x y : R) : bool := if Rlt_dec x y then true else false.

End Exact.

#[export] Instance R_Number : Number R := {
  of_int := IZR;
  of_decimal := Exact.literal;
  add := Rplus;
  sub := Rminus;
  mul := Rmult;
  neg := Ropp;
  div := Exact.truediv;
  pow2 := Exact.square;
  abs := Rabs;
  ltb := Exact.lt
}.

(** ** Runs of the solver *)

Section Runs.
Context {T : Type} {num : Number T} {W : Type}.
Variables func dfunc : callable (T:=T) (W:=W).

(** One pass through the loop body as far as the Newton update: in the
    world [w], both callables return, the derivative passes the guard,
    the division returns [q], and the update of [x] is [x - q]; [w2] is
    the world the two calls leave. *)
Inductive newton_update : T -> W -> T -> W -> Prop :=
| newton_update_intro (x : T) (w : W) (f_x : T) (w1 : W) (df_x : T) (w2 : W) (q : T) :
    func x w = (inr f_x, w1) ->
    dfunc x w1 = (inr df_x, w2) ->
    ltb (abs df_x) derivative_floor = false ->
    div f_x df_x = inr q ->
    newton_update x w (sub x q) w2.

(** [unconverged tol k x w x' w']: [k] passes in a row lead from [x] in
    the world [w] to [x'] in [w'], each one a Newton update whose step
    does not meet the tolerance. *)
Inductive unconverged (tol : T) : nat -> T -> W -> T -> W -> Prop :=
| unconverged_O (x : T) (w : W) : unconverged tol 0 x w x w
| unconverged_S (k : nat) (x : T) (w : W) (x1 : T) (w1 : W) (x' : T) (w' : W) :
    newton_update x w x1 w1 ->
    ltb (abs (sub x1 x)) tol = false ->
    unconverged tol k x1 w1 x' w' ->
    unconverged tol (S k) x w x' w'.

(** The two relations as functions: the update of [x] in [w] when the
    pass reaches it, and the end of [k] unconverged passes when there
    are that many. *)
Definition try_update (x : T) (w : W) : option (T * W) :=
  match func x w with
  | (inr f_x, w1) =>
      match dfunc x w1 with
      | (inr df_x, w2) =>
          if ltb (abs df_x) derivative_floor then None
          else match div f_x df_x with
               | inr q => Some (sub x q, w2)
               | inl _ => None
               end
      | (inl _, _) => None
      end
  | (inl _, _) => None
  end.

Fixpoint try_unconverged (tol : T) (k : nat) (x : T) (w : W) : option (T * W) :=
  match k with
  | O => Some (x, w)
  | S k' =>
      match try_update x w with
      | Some (x1, w1) =>
          if ltb (abs (sub x1 x)) tol then None
          else try_unconverged tol k' x1 w1
      | None => None
      end
  end.

End Runs.

(** A callable is deterministic when what it returns or raises depends on
    its argument only and it leaves the world as it found it. *)
Definition deterministic {T W : Type} (c : T -> py W T) : Prop :=
  exists g : T -> result T, forall (x : T) (w : W), c x w = (g x, w).

(** A callable that counts its calls in the world, for a pure [g]. *)
Definition counting {T : Type} (g : T -> result T) : T -> py nat T :=
  fun x n => (g x, S n).

(** A callable that appends each of its calls to a log, for a pure [g]. *)
Inductive event (T : Type) : Type :=
| Called_func (x : T)
| Called_dfunc (x : T).

Arguments Called_func {T} x.
Arguments Called_dfunc {T} x.

Definition traced {T : Type} (tag : T -> event T) (g : T -> result T)
    : T -> py (list (event T)) T :=
  fun x log => (g x, log ++ [tag x]).

(** ** The model as the specification writes it *)

Section Objective.
Local Open Scope R_scope.

(** The denominator [1 + V (K_i - 1)] of the component [i]. *)
Definition denominator (K : list R) (V : R) (i : nat) : R :=
  1 + V * (nth i K 0 - 1).

(** [objective(V) = sum_i z_i (K_i - 1) / (1 + V (K_i - 1))], summed over
    [i = 0 .. len(z) - 1] from the left. *)
Definition objective_term (z K : list R) (V : R) (i : nat) : R :=
  nth i z 0 * (nth i K 0 - 1) / denominator K V i.

Definition objective (z K : list R) (V : R) : R :=
  fold_left Rplus (map (objective_term z K V) (seq 0 (List.length z))) 0.

(** [objective_derivative(V) = sum_i -z_i (K_i - 1)^2 / (1 + V (K_i - 1))^2],
    over the same indices in the same order. *)
Definition objective_derivative_term (z K : list R) (V : R) (i : nat) : R :=
  - nth i z 0 * (nth i K 0 - 1) ^ 2 / denominator K V i ^ 2.

Definition objective_derivative (z K : list R) (V : R) : R :=
  fold_left Rplus (map (objective_derivative_term z K V) (seq 0 (List.length z))) 0.

End Objective.

(** ** Test functions *)

Section Workloads.
Context {T : Type} {num : Number T}.

(** [f(x) = x**2 - 2] and [f'(x) = 2*x]. *)
Definition square_minus_two (x : T) : result T :=
  (y <- pow2 x ;; inr (sub y (of_int 2)))%result.

Definition twice (x : T) : result T := inr (mul (of_int 2) x).

(** [f(x) = 1e-11 * x] and [f'(x) = 1e-11]: a line through the origin
    whose slope is not zero and lies under the guard. *)
Definition shallow_line (x : T) : result T := inr (mul (of_decimal 1 (-11)) x).

Definition shallow_slope (_ : T) : result T := inr (of_decimal 1 (-11)).

(** The largest and the smallest of a list, by [<]. *)
Definition maximum (l : list T) : T :=
  fold_left (fun a b => if ltb a b then b else a) (tl l) (hd (of_int 0) l).

Definition minimum (l : list T) : T :=
  fold_left (fun a b => if ltb b a then b else a) (tl l) (hd (of_int 0) l).

End Workloads.

(** ** The script of the module *)

(** What the script prints: [print("La solución ...:", V_solution)] or
    [print("Error:", e)], each recorded with the value it shows. *)
Inductive output (T : Type) : Type :=
| Printed_solution (V : T)
| Printed_error (msg : string).

Arguments Printed_solution {T} V.
Arguments Printed_error {T} msg.

(** The script at the end of the module, for data [z], [K], [V0]:
    [try: V_solution = newton_raphson(...); print(...)] and
    [except ValueError as e: print("Error:", e)]; any other exception
    leaves the script. *)
Definition script {T : Type} {num : Number T} (z K : list T) (V0 : T)
    : py (list (output T)) unit :=
  fun out =>
    match newton_raphson (pure_callable (rachford_rice z K))
            (pure_callable (d_rachford_rice z K)) V0 None None out with
    | (inr V, out') => (inr tt, out' ++ [Printed_solution V])
    | (inl (ValueError msg), out') => (inr tt, out' ++ [Printed_error msg])
    | (inl e, out') => (inl e, out')
    end.

(** The calls of each callable in a log. *)
Definition calls_of_func {T : Type} (log : list (event T)) : nat :=
  List.length
    (filter (fun e => match e with Called_func _ => true | Called_dfunc _ => false end)
       log).

Definition calls_of_dfunc {T : Type} (log : list (event T)) : nat :=
  List.length
    (filter (fun e => match e with Called_func _ => false | Called_dfunc _ => true end)
       log).

(** ** Signs of doubles *)




(** The denominator [1 + V * (K[i] - 1)] as the program computes it in
    binary64. *)
Definition rounded_denominator (K : list float) (V : float) (i : nat) : float :=
  add (of_int 1) (mul V (sub (nth i K 0%float) (of_int 1))).

(** * Properties *)

(** ** The literals of the file in binary64 *)

(** [Float64.literal] gives the doubles Python reads the literals as. *)
Lemma float_literals :
  derivative_floor = 1e-10%float
  /\ tol_default = 1e-6%float
  /\ z = [0.1; 0.2; 0.3; 0.4]%float
  /\ K = [4.2; 1.75; 0.74; 0.34]%float
  /\ V0 = 0%float.
Proof. repeat split; vm_compute; reflexivity. Qed.

(** ** The monad *)

Lemma bind_returns {W A B : Type} (c : py W A) (k : A -> py W B) (w w' : W) (a : A) :
  c w = (inr a, w') -> bind c k w = k a w'.
Proof. intros E. unfold bind. now rewrite E. Qed.

Lemma pure_callable_deterministic {T W : Type} (g : T -> result T) :
  deterministic (pure_callable (W:=W) g).
Proof. exists g. reflexivity. Qed.

(** ** The loop *)

Section LoopFacts.
Context {T : Type} {num : Number T} {W : Type}.
Variables func dfunc : callable (T:=T) (W:=W).
Variables (tol : T) (max_iter : Z).

Lemma try_update_sound (x : T) (w : W) (x_new : T) (w' : W) :
  try_update func dfunc x w = Some (x_new, w') ->
  newton_update func dfunc x w x_new w'.
Proof.
  unfold try_update.
  destruct (func x w) as [[e|f_x] w1] eqn:Hf; [discriminate|].
  destruct (dfunc x w1) as [[e|df_x] w2] eqn:Hdf; [discriminate|].
  destruct (ltb (abs df_x) derivative_floor) eqn:Hguard; [discriminate|].
  destruct (div f_x df_x) as [e|q] eqn:Hq; [discriminate|].
  intros [= <- <-]. now apply newton_update_intro with f_x w1 df_x.
Qed.

Lemma try_unconverged_sound (k : nat) (x : T) (w : W) (x' : T) (w' : W) :
  try_unconverged func dfunc tol k x w = Some (x', w') ->
  unconverged func dfunc tol k x w x' w'.
Proof.
  revert x w. induction k as [|k IH]; intros x w; cbn [try_unconverged].
  - intros [= <- <-]. constructor.
  - destruct (try_update func dfunc x w) as [[x1 w1]|] eqn:Hu; [|discriminate].
    destruct (ltb (abs (sub x1 x)) tol) eqn:Hstep; [discriminate|].
    intros Hrest. apply unconverged_S with x1 w1; auto using try_update_sound.
Qed.

(** A pass whose update meets the tolerance returns the updated value. *)
Lemma loop_converges (fuel : nat) (x : T) (w : W) (x_new : T) (w' : W) :
  newton_update func dfunc x w x_new w' ->
  ltb (abs (sub x_new x)) tol = true ->
  newton_raphson_loop func dfunc tol max_iter (S fuel) x w = (inr x_new, w').
Proof.
  intros U Hstep. destruct U as [x w f_x w1 df_x w2 q Hf Hdf Hguard Hq].
  cbn [newton_raphson_loop].
  rewrite (bind_returns _ _ _ _ _ Hf), (bind_returns _ _ _ _ _ Hdf), Hguard.
  unfold bind, lift. rewrite Hq. cbn zeta. now rewrite Hstep.
Qed.

(** A pass whose update misses the tolerance goes on from the updated
    value with one iteration less. *)
Lemma loop_continues (fuel : nat) (x : T) (w : W) (x_new : T) (w' : W) :
  newton_update func dfunc x w x_new w' ->
  ltb (abs (sub x_new x)) tol = false ->
  newton_raphson_loop func dfunc tol max_iter (S fuel) x w
  = newton_raphson_loop func dfunc tol max_iter fuel x_new w'.
Proof.
  intros U Hstep. destruct U as [x w f_x w1 df_x w2 q Hf Hdf Hguard Hq].
  cbn [newton_raphson_loop].
  rewrite (bind_returns _ _ _ _ _ Hf), (bind_returns _ _ _ _ _ Hdf), Hguard.
  unfold bind, lift. rewrite Hq. cbn zeta. now rewrite Hstep.
Qed.

(** A pass whose derivative falls under the guard raises at once. *)
Lemma loop_guard (fuel : nat) (x : T) (w : W) (f_x : T) (w1 : W) (df_x : T) (w2 : W) :
  func x w = (inr f_x, w1) ->
  dfunc x w1 = (inr df_x, w2) ->
  ltb (abs df_x) derivative_floor = true ->
  newton_raphson_loop func dfunc tol max_iter (S fuel) x w
  = (inl DerivativeTooSmall, w2).
Proof.
  intros Hf Hdf Hguard. cbn [newton_raphson_loop].
  now rewrite (bind_returns _ _ _ _ _ Hf), (bind_returns _ _ _ _ _ Hdf), Hguard.
Qed.

(** [k] unconverged passes use up [k] iterations. *)
Lemma loop_unconverged (k : nat) (x : T) (w : W) (x' : T) (w' : W) :
  unconverged func dfunc tol k x w x' w' ->
  forall fuel : nat,
  newton_raphson_loop func dfunc tol max_iter (k + fuel) x w
  = newton_raphson_loop func dfunc tol max_iter fuel x' w'.
Proof.
  induction 1 as [x w | k x w x1 w1 x' w' U Hstep _ IH]; intros fuel.
  - reflexivity.
  - cbn [Nat.add]. rewrite (loop_continues _ _ _ _ _ U Hstep). apply IH.
Qed.

(** Deterministic callables make every run of the loop a function of its
    start alone. *)
Lemma loop_deterministic :
  deterministic func -> deterministic dfunc ->
  forall (fuel : nat) (x : T),
  exists r : result T,
  forall w : W, newton_raphson_loop func dfunc tol max_iter fuel x w = (r, w).
Proof.
  intros [g Hg] [h Hh]. induction fuel as [|fuel IH]; intros x.
  - exists (inl (ConvergenceFailure max_iter)). reflexivity.
  - cbn [newton_raphson_loop]. unfold bind, lift, ret, raise.
    destruct (g x) as [e|f_x] eqn:Eg.
    { exists (inl e). intros w. now rewrite Hg, Eg. }
    destruct (h x) as [e|df_x] eqn:Eh.
    { exists (inl e). intros w. now rewrite Hg, Eg, Hh, Eh. }
    destruct (ltb (abs df_x) derivative_floor) eqn:Eguard.
    { exists (inl DerivativeTooSmall). intros w. now rewrite Hg, Eg, Hh, Eh, Eguard. }
    destruct (div f_x df_x) as [e|q] eqn:Eq.
    { exists (inl e). intros w. now rewrite Hg, Eg, Hh, Eh, Eguard, Eq. }
    destruct (ltb (abs (sub (sub x q) x)) tol) eqn:Estep.
    { exists (inr (sub x q)). intros w. now rewrite Hg, Eg, Hh, Eh, Eguard, Eq, Estep. }
    destruct (IH (sub x q)) as [r Hr].
    exists r. intros w. now rewrite Hg, Eg, Hh, Eh, Eguard, Eq, Estep.
Qed.

End LoopFacts.

(** ** The solver *)

(** C1. From [x = x0] the solver repeats the Newton update
    [x_new = x - f(x) / f'(x)]: after [k < max_iter] updates that miss the
    tolerance, the first update with [|x_new - x| < tol] makes it return
    [x_new], the updated value.  Omitted, [tol] is [1e-6] and [max_iter]
    is [100]. *)
Theorem newton_raphson_returns_first_converged_update
    {T : Type} {num : Number T} {W : Type}
    (func dfunc : callable (T:=T) (W:=W)) (x0 tol : T) (max_iter : Z)
    (k : nat) (w : W) (x : T) (w1 : W) (x_new : T) (w2 : W) :
  (Z.of_nat k < max_iter)%Z ->
  unconverged func dfunc tol k x0 w x w1 ->
  newton_update func dfunc x w1 x_new w2 ->
  ltb (abs (sub x_new x)) tol = true ->
  newton_raphson func dfunc x0 (Some tol) (Some max_iter) w = (inr x_new, w2)
  /\ newton_raphson func dfunc x0 None None
     = newton_raphson func dfunc x0 (Some (of_decimal 1 (-6))) (Some 100%Z).
Proof.
  intros Hk Hrun Hupdate Hstep. split; [|reflexivity].
  unfold newton_raphson.
  replace (Z.to_nat max_iter) with (k + S (Z.to_nat max_iter - S k))%nat by lia.
  rewrite (loop_unconverged _ _ _ _ _ _ _ _ _ Hrun).
  now apply loop_converges.
Qed.

(** [x**2 - 2] from [1.0] in binary64: four updates miss [1e-6], the fifth
    meets it and its value is returned. *)
Lemma first_converged_update_sqrt2 :
  newton_raphson (counting square_minus_two) (pure_callable twice) 1%float
    (Some 1e-6%float) (Some 100%Z) 0%nat
  = (inr 1.4142135623730951%float, 5%nat)
  /\ newton_raphson (counting square_minus_two) (pure_callable twice) 1%float None None
     = newton_raphson (counting square_minus_two) (pure_callable twice) 1%float
         (Some (of_decimal 1 (-6))) (Some 100%Z).
Proof.
  apply (newton_raphson_returns_first_converged_update
           (counting square_minus_two) (pure_callable twice) 1%float 1e-6%float 100
           4 0%nat 1.4142135623746899%float 4%nat).
  - lia.
  - apply try_unconverged_sound. vm_compute. reflexivity.
  - apply try_update_sound. vm_compute. reflexivity.
  - vm_compute. reflexivity.
Defined.

(** C2. When, at an iterate the solver reaches, the derivative is
    evaluated to a value with [|f'(x)| < 1e-10], the solver raises the
    [DerivativeTooSmall] error at once: the world it leaves is the one the
    evaluation of the derivative left, so nothing is called after it.  At
    the first iterate ([k = 0]) that is one call of [func], one of [dfunc],
    and no update. *)
Theorem newton_raphson_derivative_too_small
    {T : Type} {num : Number T} {W : Type}
    (func dfunc : callable (T:=T) (W:=W)) (x0 tol : T) (max_iter : Z)
    (k : nat) (w : W) (x : T) (w1 : W) (f_x : T) (w2 : W) (df_x : T) (w3 : W) :
  (Z.of_nat k < max_iter)%Z ->
  unconverged func dfunc tol k x0 w x w1 ->
  func x w1 = (inr f_x, w2) ->
  dfunc x w2 = (inr df_x, w3) ->
  ltb (abs df_x) derivative_floor = true ->
  newton_raphson func dfunc x0 (Some tol) (Some max_iter) w
  = (inl DerivativeTooSmall, w3).
Proof.
  intros Hk Hrun Hf Hdf Hguard. unfold newton_raphson.
  replace (Z.to_nat max_iter) with (k + S (Z.to_nat max_iter - S k))%nat by lia.
  rewrite (loop_unconverged _ _ _ _ _ _ _ _ _ Hrun).
  now apply loop_guard with (f_x := f_x) (w1 := w2) (df_x := df_x).
Qed.

(** [x**2 - 2] from [0.0] in binary64: the derivative is [0.0] at the first
    iterate; the log holds one call of each callable. *)
Lemma derivative_too_small_at_first_iterate :
  newton_raphson (traced Called_func square_minus_two) (traced Called_dfunc twice)
    0%float (Some 1e-6%float) (Some 100%Z) []
  = (inl DerivativeTooSmall, [Called_func 0%float; Called_dfunc 0%float]).
Proof.
  apply (newton_raphson_derivative_too_small
           (traced Called_func square_minus_two) (traced Called_dfunc twice)
           0%float 1e-6%float 100 0 [] 0%float [] (-2)%float
           [Called_func 0%float] 0%float).
  - lia.
  - constructor.
  - reflexivity.
  - reflexivity.
  - reflexivity.
Defined.

(** C3. When all [max_iter > 0] iterations are Newton updates that miss
    the tolerance, the solver raises the [ConvergenceFailure] error, whose
    message carries [max_iter]. *)
Theorem newton_raphson_convergence_failure
    {T : Type} {num : Number T} {W : Type}
    (func dfunc : callable (T:=T) (W:=W)) (x0 tol : T) (max_iter : Z)
    (w : W) (x : T) (w' : W) :
  (0 < max_iter)%Z ->
  unconverged func dfunc tol (Z.to_nat max_iter) x0 w x w' ->
  newton_raphson func dfunc x0 (Some tol) (Some max_iter) w
  = (inl (ConvergenceFailure max_iter), w').
Proof.
  intros _ Hrun. unfold newton_raphson.
  replace (Z.to_nat max_iter) with (Z.to_nat max_iter + 0)%nat at 1 by lia.
  now rewrite (loop_unconverged _ _ _ _ _ _ _ _ _ Hrun).
Qed.

(** [x**2 - 2] from [1.0] with [max_iter = 1] in binary64: the one update
    leads to [1.5], a step of [0.5], and the solver gives up. *)
Lemma convergence_failure_after_one_iteration :
  newton_raphson (counting square_minus_two) (pure_callable twice) 1%float
    (Some 1e-6%float) (Some 1%Z) 0%nat
  = (inl (ValueError "No se alcanzó la convergencia después de 1 iteraciones."),
     1%nat).
Proof.
  apply (newton_raphson_convergence_failure
           (counting square_minus_two) (pure_callable twice) 1%float 1e-6%float 1
           0%nat 1.5%float 1%nat).
  - lia.
  - apply try_unconverged_sound. vm_compute. reflexivity.
Defined.

(** C8. With deterministic [func] and [dfunc], what the solver returns or
    raises is a function of its arguments alone, the same in every world,
    and the solver leaves the world as it found it. *)
Theorem newton_raphson_deterministic
    {T : Type} {num : Number T} {W : Type}
    (func dfunc : callable (T:=T) (W:=W)) (x0 : T) (tol : option T)
    (max_iter : option Z) :
  deterministic func -> deterministic dfunc ->
  exists r : result T,
  forall w : W, newton_raphson func dfunc x0 tol max_iter w = (r, w).
Proof.
  intros Hf Hdf. unfold newton_raphson. now apply loop_deterministic.
Qed.

(** The driver call of the module, in binary64 and in any world. *)
Lemma flash_run_deterministic :
  exists r : result float,
  forall w : list (event float),
    newton_raphson (pure_callable (rachford_rice z K))
      (pure_callable (d_rachford_rice z K)) V0 None None w = (r, w).
Proof.
  apply newton_raphson_deterministic; apply pure_callable_deterministic.
Defined.

(** C9. With [max_iter <= 0] the loop body is never entered: whatever the
    callables are, the solver raises the [ConvergenceFailure] error with
    that [max_iter] and leaves the world untouched, so neither callable
    was evaluated. *)
Theorem newton_raphson_no_iterations
    {T : Type} {num : Number T} {W : Type}
    (func dfunc : callable (T:=T) (W:=W)) (x0 : T) (tol : option T)
    (max_iter : Z) (w : W) :
  (max_iter <= 0)%Z ->
  newton_raphson func dfunc x0 tol (Some max_iter) w
  = (inl (ConvergenceFailure max_iter), w).
Proof.
  intros Hn. unfold newton_raphson.
  replace (Z.to_nat max_iter) with 0%nat by lia. reflexivity.
Qed.

(** [max_iter = -3] with callables that log their calls: the log stays
    empty. *)
Lemma no_iterations_with_negative_budget :
  newton_raphson (traced Called_func square_minus_two) (traced Called_dfunc twice)
    1%float None (Some (-3)%Z) []
  = (inl (ValueError "No se alcanzó la convergencia después de -3 iteraciones."),
     []).
Proof.
  apply (newton_raphson_no_iterations
           (traced Called_func square_minus_two) (traced Called_dfunc twice)
           1%float None (-3) []).
  lia.
Defined.

(** ** Real arithmetic *)

Section RealFacts.
Local Open Scope R_scope.

Lemma ltb_R_true (x y : R) : x < y -> ltb x y = true.
Proof. intros H. cbn. unfold Exact.lt. now destruct (Rlt_dec x y). Qed.

Lemma ltb_R_false (x y : R) : ~ x < y -> ltb x y = false.
Proof. intros H. cbn. unfold Exact.lt. now destruct (Rlt_dec x y). Qed.

Lemma div_R_returns (x y : R) : y <> 0 -> div x y = inr (x / y).
Proof. intros H. cbn. unfold Exact.truediv. now destruct (Req_dec_T y 0). Qed.

(** The literals of the file as real numbers. *)
Lemma real_literals :
  derivative_floor = 1 / 10000000000
  /\ tol_default = 1 / 1000000
  /\ of_decimal 1 (-11) = 1 / 100000000000
  /\ z = [1 / 10; 2 / 10; 3 / 10; 4 / 10]
  /\ K = [42 / 10; 175 / 100; 74 / 100; 34 / 100].
Proof. repeat split. Qed.

End RealFacts.

(** C5, as the specification states it, fails under the guard: the line
    [f(x) = 1e-11 * x] has the root [0] and the derivative [1e-11], which
    is not zero, and the solver seeded at [0] raises [DerivativeTooSmall],
    over the reals and in binary64 alike. *)
Lemma root_seed_under_the_guard :
  shallow_line 0%R = inr 0%R
  /\ (exists d : R, shallow_slope 0%R = inr d /\ d <> 0%R)
  /\ (0 < tol_default)%R
  /\ (0 < max_iter_default)%Z
  /\ newton_raphson (pure_callable shallow_line) (pure_callable shallow_slope)
       0%R None None tt
     = (inl DerivativeTooSmall, tt)
  /\ newton_raphson (pure_callable shallow_line) (pure_callable shallow_slope)
       0%float None None tt
     = (inl DerivativeTooSmall, tt).
Proof.
  destruct real_literals as (Hfloor & Htol & Hslope & _).
  split; [|split; [|split; [|split; [|split]]]].
  - unfold shallow_line. f_equal. cbn [mul R_Number]. lra.
  - exists (1 / 100000000000)%R. split; [reflexivity | lra].
  - rewrite Htol. lra.
  - reflexivity.
  - unfold newton_raphson.
    change (Z.to_nat max_iter_default) with (S 99).
    apply loop_guard with (f_x := (of_decimal 1 (-11) * 0)%R) (w1 := tt)
                          (df_x := of_decimal 1 (-11)); try reflexivity.
    apply ltb_R_true. rewrite Hfloor, Hslope.
    cbn [abs R_Number]. rewrite Rabs_pos_eq; lra.
  - vm_compute. reflexivity.
Qed.

(** C5, amended.  Seeded at a root [r] where the derivative is at least
    [1e-10] in magnitude, the solver over the reals returns [r] in its first
    iteration, for every [tol > 0] and [max_iter > 0]: one call of each
    callable, the update [r - 0 / d = r], and a step of [0]. *)
Theorem newton_raphson_seeded_at_root {W : Type}
    (func dfunc : callable (T:=R) (W:=W)) (r d tol : R) (max_iter : Z)
    (w w1 w2 : W) :
  func r w = (inr 0%R, w1) ->
  dfunc r w1 = (inr d, w2) ->
  (derivative_floor <= Rabs d)%R ->
  (0 < tol)%R ->
  (0 < max_iter)%Z ->
  newton_raphson func dfunc r (Some tol) (Some max_iter) w = (inr r, w2).
Proof.
  intros Hf Hdf Hd Htol Hn. unfold newton_raphson.
  destruct real_literals as (Hfloor & _). rewrite Hfloor in Hd.
  replace (Z.to_nat max_iter) with (S (Z.to_nat max_iter - 1)) by lia.
  assert (Hd0 : d <> 0%R).
  { intros ->. rewrite Rabs_R0 in Hd. lra. }
  assert (U : newton_update func dfunc r w r w2).
  { replace r with (sub r (0 / d)%R) at 2 by (cbn [sub R_Number]; field; exact Hd0).
    apply newton_update_intro with (f_x := 0%R) (w1 := w1) (df_x := d); auto.
    - apply ltb_R_false. rewrite Hfloor. cbn [abs R_Number]. lra.
    - now apply div_R_returns. }
  apply loop_converges; [exact U|].
  apply ltb_R_true. cbn [abs sub R_Number].
  replace (r - r)%R with 0%R by ring. now rewrite Rabs_R0.
Qed.

(** [x**2 - 2] seeded at [sqrt 2]: the root comes back after one call of
    each callable. *)
Lemma seeded_at_sqrt2 :
  newton_raphson (counting square_minus_two) (counting twice) (sqrt 2)
    (Some (1 / 1000000)%R) (Some 100%Z) 0%nat
  = (inr (sqrt 2), 2%nat).
Proof.
  assert (Hsq : (sqrt 2 * sqrt 2 = 2)%R) by (apply sqrt_sqrt; lra).
  assert (Hpos : (0 < sqrt 2)%R) by (apply sqrt_lt_R0; lra).
  apply (newton_raphson_seeded_at_root
           (counting square_minus_two) (counting twice) (sqrt 2) (2 * sqrt 2)%R
           (1 / 1000000)%R 100 0%nat 1%nat 2%nat).
  - unfold counting, square_minus_two.
    cbn [pow2 sub of_int R_Number Exact.square bind_result].
    rewrite Hsq. do 2 f_equal. lra.
  - reflexivity.
  - destruct real_literals as (Hfloor & _). rewrite Hfloor.
    rewrite Rabs_pos_eq by lra. nra.
  - lra.
  - lia.
Defined.

(** ** The model over the reals *)

Section SumFacts.
Context {T : Type} {num : Number T}.

(** A sum whose terms all return is their fold from the left, in the order
    of the indices. *)
Lemma sum_from_returns (g : nat -> result T) (t : nat -> T) (l : list nat) (acc : T) :
  (forall i : nat, In i l -> g i = inr (t i)) ->
  sum_from g l acc = inr (fold_left add (map t l) acc).
Proof.
  revert acc. induction l as [|i l IH]; intros acc Hg; cbn [sum_from map fold_left].
  - reflexivity.
  - rewrite (Hg i) by now left. cbn [bind_result].
    apply IH. intros j Hj. apply Hg. now right.
Qed.

Lemma getitem_nth (l : list T) (i : nat) (d : T) :
  (i < List.length l)%nat -> getitem l i = inr (nth i l d).
Proof.
  intros Hi. unfold getitem. now rewrite (nth_error_nth' l d Hi).
Qed.

End SumFacts.

Section ModelFacts.
Local Open Scope R_scope.
Variables (z K : list R) (V : R).
Hypothesis same_length : List.length z = List.length K.

Lemma rachford_rice_term_R (i : nat) :
  (i < List.length z)%nat -> denominator K V i <> 0 ->
  rachford_rice_term z K V i = inr (objective_term z K V i).
Proof.
  intros Hi Hden. unfold rachford_rice_term.
  rewrite (getitem_nth z i 0 Hi), (getitem_nth K i 0) by lia.
  cbn [bind_result]. now apply div_R_returns.
Qed.

Lemma d_rachford_rice_term_R (i : nat) :
  (i < List.length z)%nat -> denominator K V i <> 0 ->
  d_rachford_rice_term z K V i = inr (objective_derivative_term z K V i).
Proof.
  intros Hi Hden. unfold d_rachford_rice_term.
  rewrite (getitem_nth z i 0 Hi), (getitem_nth K i 0) by lia.
  cbn [bind_result pow2 add mul neg sub of_int R_Number Exact.square].
  fold (denominator K V i).
  rewrite div_R_returns by now apply Rmult_integral_contrapositive_currified.
  f_equal. unfold objective_derivative_term. now field.
Qed.

Hypothesis nonvanishing :
  forall i : nat, (i < List.length z)%nat -> denominator K V i <> 0.

Lemma rachford_rice_R : rachford_rice z K V = inr (objective z K V).
Proof.
  unfold rachford_rice, sum_range, objective. cbn [of_int R_Number].
  pose proof (sum_from_returns (rachford_rice_term z K V) (objective_term z K V)
                (seq 0 (List.length z)) 0) as Hsum.
  cbn [add R_Number] in Hsum. apply Hsum.
  intros i Hi. apply in_seq in Hi.
  apply rachford_rice_term_R; [lia | apply nonvanishing; lia].
Qed.

Lemma d_rachford_rice_R : d_rachford_rice z K V = inr (objective_derivative z K V).
Proof.
  unfold d_rachford_rice, sum_range, objective_derivative. cbn [of_int R_Number].
  pose proof (sum_from_returns (d_rachford_rice_term z K V)
                (objective_derivative_term z K V) (seq 0 (List.length z)) 0) as Hsum.
  cbn [add R_Number] in Hsum. apply Hsum.
  intros i Hi. apply in_seq in Hi.
  apply d_rachford_rice_term_R; [lia | apply nonvanishing; lia].
Qed.

End ModelFacts.

(** ** The sums of the model in the arithmetic of the program *)




(** ** The sign of the derivative in binary64 *)

(** The sign of a rounded product, quotient and sum, read off the
    specification of the operations: rounding keeps the sign it is given. *)
Section Signs.
Variables prec emax : Z.








End Signs.



Section SumOutcome.
Context {T : Type} {num : Number T}.
Variables (P : T -> Prop) (E : exn -> Prop).
Hypothesis P_add : forall a t : T, P a -> P t -> P (add a t).

(** A sum of terms that are in [P] or raise in [E] is in [P] or raises
    in [E]. *)
Lemma sum_from_outcome (g : nat -> result T) (l : list nat) (acc : T) :
  P acc ->
  (forall i : nat, In i l ->
     match g i with inr t => P t | inl e => E e end) ->
  match sum_from g l acc with inr v => P v | inl e => E e end.
Proof.
  revert acc. induction l as [|i l IH]; intros acc Hacc Hg; cbn [sum_from].
  - exact Hacc.
  - pose proof (Hg i (or_introl eq_refl)) as Hi.
    destruct (g i) as [e|t]; cbn [bind_result]; [exact Hi|].
    apply IH; [now apply P_add | intros j Hj; apply Hg; now right].
Qed.

End SumOutcome.

Section DerivativeSign.
Variables (z K : list float) (V : float).
Hypothesis lengths : List.length z = List.length K.
Hypothesis feed : forall i : nat, (i < List.length z)%nat ->
  PrimFloat.leb 0 (nth i z 0%float) = true.




End DerivativeSign.




(** ** The two scenarios in binary64 *)

(** The doubles of the two scenarios as real numbers. *)
Lemma F2R_values :
  map F2R z
  = [7205759403792794 / 72057594037927936; 7205759403792794 / 36028797018963968;
     5404319552844595 / 18014398509481984; 7205759403792794 / 18014398509481984]%R
  /\ map F2R K
  = [4728779608739021 / 1125899906842624; 7881299347898368 / 4503599627370496;
     6665327448508334 / 9007199254740992; 6124895493223875 / 18014398509481984]%R
  /\ F2R (maximum K) = (4728779608739021 / 1125899906842624)%R
  /\ F2R (minimum K) = (6124895493223875 / 18014398509481984)%R
  /\ F2R 0.12188396426827665%float = (8782665216976793 / 72057594037927936)%R
  /\ F2R 1.4142135623730951%float = (6369051672525773 / 4503599627370496)%R.
Proof. repeat split. Qed.

(** C6. The driver call of the module in binary64 ([x0 = 0], default [tol]
    and [max_iter]) returns a vapor fraction [V]; [rachford_rice] evaluated
    at [V] is under [1e-5] in magnitude, and so is the exact sum for the
    values the doubles stand for; [V] lies strictly between
    [1 / (1 - K_max)] and [1 / (1 - K_min)]. *)
Theorem flash_scenario_converges :
  exists V o : float,
    V_solution tt = (inr V, tt)
    /\ rachford_rice z K V = inr o
    /\ ltb (abs o) (of_decimal 1 (-5)) = true
    /\ (Rabs (objective (map F2R z) (map F2R K) (F2R V)) < 1 / 100000)%R
    /\ (1 / (1 - F2R (maximum K)) < F2R V < 1 / (1 - F2R (minimum K)))%R.
Proof.
  exists 0.12188396426827665%float, 5.5511151231257827e-17%float.
  destruct F2R_values as (Hz & HK & Hmax & Hmin & HV & _).
  split; [vm_compute; reflexivity|].
  split; [vm_compute; reflexivity|].
  split; [vm_compute; reflexivity|].
  split.
  - rewrite Hz, HK, HV. unfold objective, objective_term, denominator.
    cbn [List.length seq map fold_left nth].
    apply Rabs_def1; lra.
  - rewrite Hmax, Hmin, HV. split; lra.
Qed.

(** C7. For [f(x) = x**2 - 2], [f'(x) = 2*x] and [x0 = 1.0] in binary64,
    with the default [tol] and [max_iter], the solver returns a value
    within [1e-6] of [sqrt 2] after fewer than [10] iterations ([n] counts
    the calls of [f], one per iteration). *)
Theorem sqrt2_converges_in_under_ten_iterations :
  exists (v : float) (n : nat),
    newton_raphson (counting square_minus_two) (pure_callable twice)
      1%float None None 0%nat
    = (inr v, n)
    /\ (n < 10)%nat
    /\ (Rabs (F2R v - sqrt 2) < 1 / 1000000)%R.
Proof.
  exists 1.4142135623730951%float, 5%nat.
  destruct F2R_values as (_ & _ & _ & _ & _ & Hv).
  split; [vm_compute; reflexivity|]. split; [lia|].
  rewrite Hv. set (q := (6369051672525773 / 4503599627370496)%R).
  assert (Hlo : (q - 1 / 1000000 < sqrt 2)%R).
  { rewrite <- (sqrt_square (q - 1 / 1000000)) by (unfold q; lra).
    apply sqrt_lt_1_alt. unfold q. lra. }
  assert (Hhi : (sqrt 2 < q + 1 / 1000000)%R).
  { rewrite <- (sqrt_square (q + 1 / 1000000)) by (unfold q; lra).
    apply sqrt_lt_1_alt. unfold q. lra. }
  apply Rabs_def1; lra.
Qed.

(** * Further properties of the solver, the model and the script *)

(** ** Where results and failures of the solver come from *)

Section LoopInversion.
Context {T : Type} {num : Number T} {W : Type}.
Variables func dfunc : callable (T:=T) (W:=W).
Variables (tol : T) (max_iter : Z).

(** A loop that returns a value returned it from a converged update that
    came after unconverged ones. *)
Lemma loop_returns_inv (fuel : nat) (x0 : T) (w : W) (v : T) (w' : W) :
  newton_raphson_loop func dfunc tol max_iter fuel x0 w = (inr v, w') ->
  exists (k : nat) (x : T) (w1 : W),
    (k < fuel)%nat
    /\ unconverged func dfunc tol k x0 w x w1
    /\ newton_update func dfunc x w1 v w'
    /\ ltb (abs (sub v x)) tol = true.
Proof.
  revert x0 w. induction fuel as [|fuel IH]; intros x0 w; cbn [newton_raphson_loop].
  - discriminate.
  - unfold bind, lift, ret, raise.
    destruct (func x0 w) as [[e|f_x] w1] eqn:Hf; [discriminate|].
    destruct (dfunc x0 w1) as [[e|df_x] w2] eqn:Hdf; [discriminate|].
    destruct (ltb (abs df_x) derivative_floor) eqn:Hguard; [discriminate|].
    destruct (div f_x df_x) as [e|q] eqn:Hq; [discriminate|].
    assert (U : newton_update func dfunc x0 w (sub x0 q) w2)
      by now apply newton_update_intro with f_x w1 df_x.
    destruct (ltb (abs (sub (sub x0 q) x0)) tol) eqn:Hstep.
    + intros [= <- <-]. exists 0%nat, x0, w. repeat split; auto; try lia. constructor.
    + intros Hrest. destruct (IH _ _ Hrest) as (k & x & wk & Hk & Hrun & Hup & Hconv).
      exists (S k), x, wk. repeat split; auto; try lia.
      now apply unconverged_S with (sub x0 q) w2.
Qed.

(** An exception of [func] ends the loop with that exception, before
    [dfunc] is called. *)
Lemma loop_func_raises (fuel : nat) (x : T) (w : W) (e : exn) (w' : W) :
  func x w = (inl e, w') ->
  newton_raphson_loop func dfunc tol max_iter (S fuel) x w = (inl e, w').
Proof.
  intros Hf. cbn [newton_raphson_loop]. unfold bind. now rewrite Hf.
Qed.

Lemma loop_dfunc_raises (fuel : nat) (x : T) (w : W) (f_x : T) (w1 : W) (e : exn) (w' : W) :
  func x w = (inr f_x, w1) ->
  dfunc x w1 = (inl e, w') ->
  newton_raphson_loop func dfunc tol max_iter (S fuel) x w = (inl e, w').
Proof.
  intros Hf Hdf. cbn [newton_raphson_loop]. unfold bind. now rewrite Hf, Hdf.
Qed.

End LoopInversion.

(** X1. Whatever the callables, a value the solver returns is a Newton
    update [x - f(x) / f'(x)] of an iterate [x] it reached in fewer than
    [max_iter] unconverged updates, with [|f'(x)| >= 1e-10] and a step
    [|x_new - x| < tol]. *)
Theorem newton_raphson_returns_only_converged_updates
    {T : Type} {num : Number T} {W : Type}
    (func dfunc : callable (T:=T) (W:=W)) (x0 tol : T) (max_iter : Z)
    (w : W) (v : T) (w' : W) :
  newton_raphson func dfunc x0 (Some tol) (Some max_iter) w = (inr v, w') ->
  exists (k : nat) (x : T) (w1 : W),
    (Z.of_nat k < max_iter)%Z
    /\ unconverged func dfunc tol k x0 w x w1
    /\ newton_update func dfunc x w1 v w'
    /\ ltb (abs (sub v x)) tol = true.
Proof.
  unfold newton_raphson. intros Hret.
  destruct (loop_returns_inv _ _ _ _ _ _ _ _ _ Hret) as (k & x & w1 & Hk & Hrest).
  exists k, x, w1. split; [lia | exact Hrest].
Qed.

(** The value returned for [x**2 - 2] from [1.0] in binary64. *)
Lemma returns_only_converged_updates_sqrt2 :
  exists (k : nat) (x : float) (w1 : nat),
    (Z.of_nat k < 100)%Z
    /\ unconverged (counting square_minus_two) (pure_callable twice) 1e-6%float k
         1%float 0%nat x w1
    /\ newton_update (counting square_minus_two) (pure_callable twice) x w1
         1.4142135623730951%float 5%nat
    /\ ltb (abs (sub 1.4142135623730951%float x)) 1e-6%float = true.
Proof.
  apply (newton_raphson_returns_only_converged_updates
           (counting square_minus_two) (pure_callable twice) 1%float 1e-6%float 100
           0%nat 1.4142135623730951%float 5%nat).
  vm_compute. reflexivity.
Defined.

(** X2. An exception raised by [func] at an iterate the solver reaches
    leaves the solver unchanged, and [dfunc] is not called at that iterate:
    the world is the one [func] left. *)
Theorem newton_raphson_propagates_func_exception
    {T : Type} {num : Number T} {W : Type}
    (func dfunc : callable (T:=T) (W:=W)) (x0 tol : T) (max_iter : Z)
    (k : nat) (w : W) (x : T) (w1 : W) (e : exn) (w2 : W) :
  (Z.of_nat k < max_iter)%Z ->
  unconverged func dfunc tol k x0 w x w1 ->
  func x w1 = (inl e, w2) ->
  newton_raphson func dfunc x0 (Some tol) (Some max_iter) w = (inl e, w2).
Proof.
  intros Hk Hrun Hf. unfold newton_raphson.
  replace (Z.to_nat max_iter) with (k + S (Z.to_nat max_iter - S k))%nat by lia.
  rewrite (loop_unconverged _ _ _ _ _ _ _ _ _ Hrun).
  now apply loop_func_raises.
Qed.

(** [rachford_rice] divides by zero at [V = -1] for [z = [1]], [K = [2]]:
    the log holds the one call of [func]. *)
Lemma func_exception_in_binary64 :
  newton_raphson (traced Called_func (rachford_rice [1%float] [2%float]))
    (traced Called_dfunc (d_rachford_rice [1%float] [2%float]))
    (-1)%float (Some 1e-6%float) (Some 100%Z) []
  = (inl ZeroDivisionError, [Called_func (-1)%float]).
Proof.
  apply (newton_raphson_propagates_func_exception
           (traced Called_func (rachford_rice [1%float] [2%float]))
           (traced Called_dfunc (d_rachford_rice [1%float] [2%float]))
           (-1)%float 1e-6%float 100 0 [] (-1)%float []).
  - lia.
  - constructor.
  - reflexivity.
Defined.

(** X3. An exception raised by [dfunc], after [func] returned at the same
    iterate, leaves the solver unchanged as well. *)
Theorem newton_raphson_propagates_dfunc_exception
    {T : Type} {num : Number T} {W : Type}
    (func dfunc : callable (T:=T) (W:=W)) (x0 tol : T) (max_iter : Z)
    (k : nat) (w : W) (x : T) (w1 : W) (f_x : T) (w2 : W) (e : exn) (w3 : W) :
  (Z.of_nat k < max_iter)%Z ->
  unconverged func dfunc tol k x0 w x w1 ->
  func x w1 = (inr f_x, w2) ->
  dfunc x w2 = (inl e, w3) ->
  newton_raphson func dfunc x0 (Some tol) (Some max_iter) w = (inl e, w3).
Proof.
  intros Hk Hrun Hf Hdf. unfold newton_raphson.
  replace (Z.to_nat max_iter) with (k + S (Z.to_nat max_iter - S k))%nat by lia.
  rewrite (loop_unconverged _ _ _ _ _ _ _ _ _ Hrun).
  now apply loop_dfunc_raises with f_x w2.
Qed.

(** [d_rachford_rice] overflows in [(K - 1)**2] for [K = [1e200]] while
    [rachford_rice] returns. *)
Lemma dfunc_exception_in_binary64 :
  newton_raphson (traced Called_func (rachford_rice [1%float] [1e200%float]))
    (traced Called_dfunc (d_rachford_rice [1%float] [1e200%float]))
    0%float (Some 1e-6%float) (Some 100%Z) []
  = (inl OverflowError, [Called_func 0%float; Called_dfunc 0%float]).
Proof.
  apply (newton_raphson_propagates_dfunc_exception
           (traced Called_func (rachford_rice [1%float] [1e200%float]))
           (traced Called_dfunc (d_rachford_rice [1%float] [1e200%float]))
           0%float 1e-6%float 100 0 [] 0%float [] 9.9999999999999997e+199%float
           [Called_func 0%float]).
  - lia.
  - constructor.
  - reflexivity.
  - reflexivity.
Defined.

Lemma calls_of_func_app {T : Type} (l1 l2 : list (event T)) :
  calls_of_func (l1 ++ l2) = (calls_of_func l1 + calls_of_func l2)%nat.
Proof. unfold calls_of_func. now rewrite filter_app, length_app. Qed.

Lemma calls_of_dfunc_app {T : Type} (l1 l2 : list (event T)) :
  calls_of_dfunc (l1 ++ l2) = (calls_of_dfunc l1 + calls_of_dfunc l2)%nat.
Proof. unfold calls_of_dfunc. now rewrite filter_app, length_app. Qed.

Ltac call_counts :=
  rewrite ?calls_of_func_app, ?calls_of_dfunc_app;
  change (calls_of_func [Called_func ?x]) with 1%nat;
  change (calls_of_dfunc [Called_func ?x]) with 0%nat;
  change (calls_of_func [Called_dfunc ?x]) with 0%nat;
  change (calls_of_dfunc [Called_dfunc ?x]) with 1%nat;
  lia.

Section LoopCalls.
Context {T : Type} {num : Number T}.
Variables g h : T -> result T.
Variables (tol : T) (max_iter : Z).

(** Each pass of the loop calls [func] once, then [dfunc] at most once. *)
Lemma loop_calls (fuel : nat) (x : T) (log : list (event T)) :
  exists nf nd : nat,
    calls_of_func
      (snd (newton_raphson_loop (traced Called_func g) (traced Called_dfunc h)
              tol max_iter fuel x log)) = (calls_of_func log + nf)%nat
    /\ calls_of_dfunc
      (snd (newton_raphson_loop (traced Called_func g) (traced Called_dfunc h)
              tol max_iter fuel x log)) = (calls_of_dfunc log + nd)%nat
    /\ (nd <= nf <= fuel)%nat /\ (nf <= nd + 1)%nat.
Proof.
  revert x log. induction fuel as [|fuel IH]; intros x log; cbn [newton_raphson_loop].
  - exists 0%nat, 0%nat. unfold raise. cbn [snd]. lia.
  - unfold bind, lift, ret, raise, traced in *.
    destruct (g x) as [e|f_x].
    { exists 1%nat, 0%nat. cbn [snd]. call_counts. }
    destruct (h x) as [e|df_x].
    { exists 1%nat, 1%nat. cbn [snd]. call_counts. }
    destruct (ltb (abs df_x) derivative_floor).
    { exists 1%nat, 1%nat. cbn [snd]. call_counts. }
    destruct (div f_x df_x) as [e|q].
    { exists 1%nat, 1%nat. cbn [snd]. call_counts. }
    destruct (ltb (abs (sub (sub x q) x)) tol).
    { exists 1%nat, 1%nat. cbn [snd]. call_counts. }
    destruct (IH (sub x q) ((log ++ [Called_func x]) ++ [Called_dfunc x]))
      as (nf & nd & Hf & Hd & Hle & Hle').
    exists (S nf), (S nd). rewrite Hf, Hd. call_counts.
Qed.

End LoopCalls.

(** X4. Whatever the outcome, the solver calls [func] at most [max_iter]
    times (not at all when [max_iter <= 0]), and [dfunc] as often as
    [func] or once less. *)
Theorem newton_raphson_call_budget {T : Type} {num : Number T}
    (g h : T -> result T) (x0 : T) (tol : option T) (max_iter : Z)
    (log : list (event T)) :
  exists nf nd : nat,
    calls_of_func
      (snd (newton_raphson (traced Called_func g) (traced Called_dfunc h)
              x0 tol (Some max_iter) log)) = (calls_of_func log + nf)%nat
    /\ calls_of_dfunc
      (snd (newton_raphson (traced Called_func g) (traced Called_dfunc h)
              x0 tol (Some max_iter) log)) = (calls_of_dfunc log + nd)%nat
    /\ (nd <= nf <= Z.to_nat max_iter)%nat /\ (nf <= nd + 1)%nat.
Proof. unfold newton_raphson. apply loop_calls. Qed.

Section LoopFailures.
Context {T : Type} {num : Number T} {W : Type}.
Variables func dfunc : callable (T:=T) (W:=W).
Variables (tol : T) (max_iter : Z).

(** Where a failure of the loop comes from. *)
Lemma loop_raises_inv (fuel : nat) (x0 : T) (w : W) (e : exn) (w' : W) :
  newton_raphson_loop func dfunc tol max_iter fuel x0 w = (inl e, w') ->
  e = ConvergenceFailure max_iter
  \/ e = DerivativeTooSmall
  \/ (exists (x : T) (w1 : W), func x w1 = (inl e, w'))
  \/ (exists (x : T) (w1 : W), dfunc x w1 = (inl e, w'))
  \/ (exists f_x df_x : T,
        ltb (abs df_x) derivative_floor = false /\ div f_x df_x = inl e).
Proof.
  revert x0 w. induction fuel as [|fuel IH]; intros x0 w; cbn [newton_raphson_loop].
  - intros [= <- <-]. now left.
  - unfold bind, lift, ret, raise.
    destruct (func x0 w) as [[e1|f_x] w1] eqn:Hf.
    { intros [= <- <-]. right; right; left. now exists x0, w. }
    destruct (dfunc x0 w1) as [[e1|df_x] w2] eqn:Hdf.
    { intros [= <- <-]. right; right; right; left. now exists x0, w1. }
    destruct (ltb (abs df_x) derivative_floor) eqn:Hguard.
    { intros [= <- <-]. right; now left. }
    destruct (div f_x df_x) as [e1|q] eqn:Hq.
    { intros [= <- <-]. right; right; right; right. now exists f_x, df_x. }
    destruct (ltb (abs (sub (sub x0 q) x0)) tol); [discriminate|].
    apply IH.
Qed.

End LoopFailures.

(** The messages of the two failures *)
Lemma length_append (s1 s2 : string) :
  String.length (s1 ++ s2)%string = (String.length s1 + String.length s2)%nat.
Proof. induction s1 as [|a s1 IH]; cbn; [reflexivity | now rewrite IH]. Qed.

Lemma append_cancel_r (s1 s2 t : string) :
  (s1 ++ t = s2 ++ t)%string -> s1 = s2.
Proof.
  intros E.
  assert (L : String.length s1 = String.length s2).
  { apply (f_equal String.length) in E. rewrite !length_append in E. lia. }
  revert s2 E L. induction s1 as [|a s1 IH]; intros [|b s2] E L; cbn in *;
    try discriminate; [reflexivity|].
  injection E as -> E. f_equal. apply IH; [exact E | lia].
Qed.

Lemma to_int_not_nil (n : Z) :
  Z.to_int n <> Decimal.Pos Decimal.Nil /\ Z.to_int n <> Decimal.Neg Decimal.Nil.
Proof.
  split; intros E; pose proof (f_equal Z.of_int E) as E0;
    rewrite DecimalZ.of_to in E0; cbn in E0; subst n; discriminate E.
Qed.

(** X5. The two failures of the solver are told apart by their messages,
    and the message of a convergence failure determines [max_iter]. *)
Theorem failure_kinds_tell_apart :
  (forall n : Z, DerivativeTooSmall <> ConvergenceFailure n)
  /\ (forall n n' : Z, ConvergenceFailure n = ConvergenceFailure n' -> n = n').
Proof.
  split.
  - intros n E. unfold DerivativeTooSmall, ConvergenceFailure in E.
    injection E as E. unfold derivative_msg, convergence_msg in E.
    cbn [append] in E. discriminate E.
  - intros n n' E. unfold ConvergenceFailure in E. injection E as E.
    unfold convergence_msg in E. cbn [append] in E.
    repeat (injection E as E).
    apply append_cancel_r in E.
    destruct (to_int_not_nil n) as [Hp Hn], (to_int_not_nil n') as [Hp' Hn'].
    apply (f_equal NilZero.int_of_string) in E.
    rewrite !NilZero.isi in E by assumption.
    injection E as E. now apply DecimalZ.to_int_inj.
Qed.

(** ** The solver in binary64 *)

Section Binary64.

Lemma SFcompare_refl_finite (s : bool) (m : positive) (e : Z) :
  SFcompare (S754_finite s m e) (S754_finite s m e) = Some Eq.
Proof.
  unfold SFcompare. rewrite Z.compare_refl, Pos.compare_cont_refl. now destruct s.
Qed.

(** Nothing compares under a NaN, and neither a NaN nor an infinity has a
    magnitude under anything. *)
Lemma SFltb_abs_true (u t : spec_float) :
  SFltb (SFabs u) t = true ->
  (exists s : bool, u = S754_zero s)
  \/ (exists (s : bool) (m : positive) (e : Z), u = S754_finite s m e).
Proof.
  destruct u as [s|s| |s m e].
  - intros _. left. now exists s.
  - destruct t as [st|[|]| |[|] mt et]; discriminate.
  - discriminate.
  - intros _. right. now exists s, m, e.
Qed.

(** A double whose magnitude is not under [1e-10] is not a zero. *)
Lemma guard_excludes_zero (d : float) :
  ltb (abs d) derivative_floor = false -> PrimFloat.eqb d PrimFloat.zero = false.
Proof.
  cbn [ltb abs float_Number].
  rewrite FloatAxioms.ltb_spec, FloatAxioms.abs_spec, FloatAxioms.eqb_spec.
  replace (Prim2SF derivative_floor)
    with (S754_finite false 7737125245533627 (-86)) by (vm_compute; reflexivity).
  replace (Prim2SF PrimFloat.zero) with (S754_zero false) by (vm_compute; reflexivity).
  destruct (Prim2SF d) as [s|s| |s m e].
  - discriminate.
  - intros _. now destruct s.
  - reflexivity.
  - intros _. now destruct s.
Qed.

(** Past the guard the division of the update returns. *)
Lemma guarded_division_returns (f_x df_x : float) :
  ltb (abs df_x) derivative_floor = false ->
  div f_x df_x = inr (PrimFloat.div f_x df_x).
Proof.
  intros Hguard. cbn [div float_Number]. unfold Float64.truediv.
  now rewrite (guard_excludes_zero _ Hguard).
Qed.

(** A difference that is a zero or a finite number is one of such
    numbers. *)
Lemma SF64sub_finite (a b : spec_float) :
  (exists s : bool, SF64sub a b = S754_zero s)
  \/ (exists (s : bool) (m : positive) (e : Z), SF64sub a b = S754_finite s m e) ->
  (exists s : bool, a = S754_zero s)
  \/ (exists (s : bool) (m : positive) (e : Z), a = S754_finite s m e).
Proof.
  destruct a as [s|s| |s m e].
  - intros _. left. now exists s.
  - intros [[s0 H]|(s0 & m0 & e0 & H)]; exfalso;
      destruct b as [sb|sb| |sb mb eb]; destruct s; try destruct sb; discriminate H.
  - intros [[s0 H]|(s0 & m0 & e0 & H)]; exfalso;
      destruct b as [sb|sb| |sb mb eb]; discriminate H.
  - intros _. right. now exists s, m, e.
Qed.

(** A step that compares under a tolerance is between finite doubles. *)
Lemma small_step_is_finite (v x tol : float) :
  ltb (abs (sub v x)) tol = true -> PrimFloat.is_finite v = true.
Proof.
  cbn [ltb abs sub float_Number].
  rewrite FloatAxioms.ltb_spec, FloatAxioms.abs_spec, FloatAxioms.sub_spec.
  intros Hlt. apply SFltb_abs_true, SF64sub_finite in Hlt.
  unfold PrimFloat.is_finite, PrimFloat.is_nan, PrimFloat.is_infinity.
  rewrite !FloatAxioms.eqb_spec, FloatAxioms.abs_spec.
  replace (Prim2SF infinity) with (S754_infinity false) by (vm_compute; reflexivity).
  destruct Hlt as [[s ->]|(s & m & e & ->)].
  - reflexivity.
  - unfold SFeqb at 1. rewrite SFcompare_refl_finite. reflexivity.
Qed.

End Binary64.

(** X6. In binary64 a failure of the solver is its convergence failure,
    its small-derivative failure, or an exception one of the callables
    raised: past the guard [f_x / df_x] cannot divide by zero. *)
Theorem newton_raphson_binary64_failures {W : Type}
    (func dfunc : callable (T:=float) (W:=W)) (x0 tol : float) (max_iter : Z)
    (w : W) (e : exn) (w' : W) :
  newton_raphson func dfunc x0 (Some tol) (Some max_iter) w = (inl e, w') ->
  e = ConvergenceFailure max_iter
  \/ e = DerivativeTooSmall
  \/ (exists (x : float) (w1 : W), func x w1 = (inl e, w'))
  \/ (exists (x : float) (w1 : W), dfunc x w1 = (inl e, w')).
Proof.
  unfold newton_raphson. intros Hfail.
  destruct (loop_raises_inv _ _ _ _ _ _ _ _ _ Hfail)
    as [H|[H|[H|[H|(f_x & df_x & Hguard & Hdiv)]]]]; auto.
  rewrite (guarded_division_returns _ _ Hguard) in Hdiv. discriminate.
Qed.

(** The failure of [x**2 - 2] from [1.0] with one iteration. *)
Lemma binary64_failure_with_one_iteration :
  ConvergenceFailure 1 = ConvergenceFailure 1
  \/ ConvergenceFailure 1 = DerivativeTooSmall
  \/ (exists (x : float) (w1 : nat),
        counting square_minus_two x w1 = (inl (ConvergenceFailure 1), 1%nat))
  \/ (exists (x : float) (w1 : nat),
        pure_callable twice x w1 = (inl (ConvergenceFailure 1), 1%nat)).
Proof.
  apply (newton_raphson_binary64_failures
           (counting square_minus_two) (pure_callable twice) 1%float 1e-6%float 1
           0%nat (ConvergenceFailure 1) 1%nat).
  vm_compute. reflexivity.
Defined.

(** X7. In binary64 a value the solver returns is a finite double, never
    a NaN or an infinity, whatever the callables and the tolerance. *)
Theorem newton_raphson_binary64_returns_finite {W : Type}
    (func dfunc : callable (T:=float) (W:=W)) (x0 tol : float) (max_iter : Z)
    (w : W) (v : float) (w' : W) :
  newton_raphson func dfunc x0 (Some tol) (Some max_iter) w = (inr v, w') ->
  PrimFloat.is_finite v = true.
Proof.
  unfold newton_raphson. intros Hret.
  destruct (loop_returns_inv _ _ _ _ _ _ _ _ _ Hret) as (k & x & w1 & _ & _ & _ & Hstep).
  exact (small_step_is_finite _ _ _ Hstep).
Qed.

(** The value returned for [x**2 - 2] from [1.0]. *)
Lemma binary64_sqrt2_is_finite :
  PrimFloat.is_finite 1.4142135623730951%float = true.
Proof.
  apply (newton_raphson_binary64_returns_finite
           (counting square_minus_two) (pure_callable twice) 1%float 1e-6%float 100
           0%nat 1.4142135623730951%float 5%nat).
  vm_compute. reflexivity.
Defined.

(** ** Edges of the model *)

Section SumEdges.
Context {T : Type} {num : Number T}.

(** Sums over the same indices of terms that agree there are equal. *)
Lemma sum_from_ext (g g' : nat -> result T) (l : list nat) (acc : T) :
  (forall i : nat, In i l -> g i = g' i) ->
  sum_from g l acc = sum_from g' l acc.
Proof.
  revert acc. induction l as [|i l IH]; intros acc Hg; cbn [sum_from].
  - reflexivity.
  - rewrite (Hg i) by now left. destruct (g' i) as [e|t]; cbn [bind_result].
    + reflexivity.
    + apply IH. intros j Hj. apply Hg. now right.
Qed.

(** A sum with a term that raises does not return. *)
Lemma sum_from_some_raises (g : nat -> result T) (l : list nat) (acc : T) :
  (exists (i : nat) (e : exn), In i l /\ g i = inl e) ->
  exists e : exn, sum_from g l acc = inl e.
Proof.
  revert acc. induction l as [|j l IH]; intros acc (i & e & Hi & Hg).
  - destruct Hi.
  - cbn [sum_from]. destruct (g j) as [e'|t] eqn:Hj; cbn [bind_result].
    + now exists e'.
    + apply IH. destruct Hi as [->|Hi]; [congruence|]. now exists i, e.
Qed.

(** A sum whose terms return or raise [e], one of them raising, raises
    [e]. *)
Lemma sum_from_raises (g : nat -> result T) (e : exn) (l : list nat) (acc : T) :
  (forall i : nat, In i l -> (exists t : T, g i = inr t) \/ g i = inl e) ->
  (exists i : nat, In i l /\ g i = inl e) ->
  sum_from g l acc = inl e.
Proof.
  revert acc. induction l as [|j l IH]; intros acc Hall (i & Hi & Hg).
  - destruct Hi.
  - cbn [sum_from]. destruct (Hall j (or_introl eq_refl)) as [[t Ht]|Hj].
    + rewrite Ht. cbn [bind_result]. apply IH.
      * intros k Hk. apply Hall. now right.
      * destruct Hi as [->|Hi]; [congruence|]. now exists i.
    + now rewrite Hj.
Qed.

Lemma getitem_firstn (l : list T) (n i : nat) :
  (i < n)%nat -> getitem (firstn n l) i = getitem l i.
Proof. intros Hi. unfold getitem. now rewrite nth_error_firstn, (proj2 (Nat.ltb_lt i n) Hi). Qed.

Lemma getitem_out_of_range (l : list T) (i : nat) :
  (List.length l <= i)%nat -> getitem l i = inl IndexError.
Proof.
  intros Hi. unfold getitem. now rewrite (proj2 (nth_error_None l i) Hi).
Qed.

End SumEdges.

(** X8. Entries of [K] beyond the length of [z] are never read: both model
    functions give what they give for [K] cut to the length of [z]. *)
Theorem rachford_rice_ignores_extra_K {T : Type} {num : Number T}
    (z K : list T) (V : T) :
  (List.length z <= List.length K)%nat ->
  rachford_rice z K V = rachford_rice z (firstn (List.length z) K) V
  /\ d_rachford_rice z K V = d_rachford_rice z (firstn (List.length z) K) V.
Proof.
  intros _. unfold rachford_rice, d_rachford_rice, sum_range. split.
  - apply sum_from_ext. intros i Hi. apply in_seq in Hi.
    unfold rachford_rice_term. now rewrite getitem_firstn by lia.
  - apply sum_from_ext. intros i Hi. apply in_seq in Hi.
    unfold d_rachford_rice_term. now rewrite getitem_firstn by lia.
Qed.

(** Two components with a third ratio in binary64. *)
Lemma extra_K_ignored_in_binary64 :
  (2 <= 3)%nat
  /\ rachford_rice [0.5; 0.5]%float [2; 0.5; 7]%float 0.25%float
     = rachford_rice [0.5; 0.5]%float [2; 0.5]%float 0.25%float
  /\ d_rachford_rice [0.5; 0.5]%float [2; 0.5; 7]%float 0.25%float
     = d_rachford_rice [0.5; 0.5]%float [2; 0.5]%float 0.25%float.
Proof.
  split; [lia|].
  apply (rachford_rice_ignores_extra_K [0.5; 0.5]%float [2; 0.5; 7]%float 0.25%float).
  cbn. lia.
Defined.

(** X9. With [K] shorter than [z] neither model function returns a value;
    when the terms before the end of [K] return, the exception is
    [IndexError]. *)
Theorem rachford_rice_short_K_raises {T : Type} {num : Number T}
    (z K : list T) (V : T) :
  (List.length K < List.length z)%nat ->
  (exists e : exn, rachford_rice z K V = inl e)
  /\ (exists e : exn, d_rachford_rice z K V = inl e)
  /\ ((forall i : nat, (i < List.length K)%nat ->
         exists t : T, rachford_rice_term z K V i = inr t) ->
      rachford_rice z K V = inl IndexError)
  /\ ((forall i : nat, (i < List.length K)%nat ->
         exists t : T, d_rachford_rice_term z K V i = inr t) ->
      d_rachford_rice z K V = inl IndexError).
Proof.
  intros Hlen.
  assert (Hz : forall i : nat, (i < List.length z)%nat -> exists v, getitem z i = inr v).
  { intros i Hi. unfold getitem. destruct (nth_error z i) eqn:E; [now eexists|].
    apply nth_error_None in E. lia. }
  assert (Hterm : forall i : nat, (List.length K <= i < List.length z)%nat ->
            rachford_rice_term z K V i = inl IndexError).
  { intros i Hi. unfold rachford_rice_term. destruct (Hz i) as [v ->]; [lia|].
    now rewrite getitem_out_of_range by lia. }
  assert (Hdterm : forall i : nat, (List.length K <= i < List.length z)%nat ->
            d_rachford_rice_term z K V i = inl IndexError).
  { intros i Hi. unfold d_rachford_rice_term. destruct (Hz i) as [v ->]; [lia|].
    now rewrite getitem_out_of_range by lia. }
  unfold rachford_rice, d_rachford_rice, sum_range. repeat split.
  - apply sum_from_some_raises. exists (List.length K), IndexError. split.
    + apply in_seq. lia.
    + apply Hterm. lia.
  - apply sum_from_some_raises. exists (List.length K), IndexError. split.
    + apply in_seq. lia.
    + apply Hdterm. lia.
  - intros Hbefore. apply sum_from_raises.
    + intros i Hi. apply in_seq in Hi.
      destruct (Nat.lt_ge_cases i (List.length K)) as [Hlt|Hge].
      * left. now apply Hbefore.
      * right. apply Hterm. lia.
    + exists (List.length K). split; [apply in_seq; lia | apply Hterm; lia].
  - intros Hbefore. apply sum_from_raises.
    + intros i Hi. apply in_seq in Hi.
      destruct (Nat.lt_ge_cases i (List.length K)) as [Hlt|Hge].
      * left. now apply Hbefore.
      * right. apply Hdterm. lia.
    + exists (List.length K). split; [apply in_seq; lia | apply Hdterm; lia].
Qed.

(** Two components with one ratio in binary64. *)
Lemma short_K_in_binary64 :
  (1 < 2)%nat
  /\ rachford_rice [0.5; 0.5]%float [2]%float 0.25%float = inl IndexError
  /\ d_rachford_rice [0.5; 0.5]%float [2]%float 0.25%float = inl IndexError.
Proof.
  split; [lia|].
  destruct (rachford_rice_short_K_raises [0.5; 0.5]%float [2]%float 0.25%float)
    as (_ & _ & H & Hd); [cbn; lia|].
  split; [apply H | apply Hd]; intros i Hi;
    (assert (i = 0)%nat as -> by (cbn in Hi; lia)); eexists; reflexivity.
Defined.

Section ModelEdges.
Local Open Scope R_scope.
Variables (z K : list R) (V : R).
Hypothesis same_length : List.length z = List.length K.

(** Over the reals a term returns or divides by zero, and it divides by
    zero exactly where its denominator vanishes. *)
Lemma rachford_rice_term_vanishing (i : nat) :
  (i < List.length z)%nat -> denominator K V i = 0 ->
  rachford_rice_term z K V i = inl ZeroDivisionError
  /\ d_rachford_rice_term z K V i = inl ZeroDivisionError.
Proof.
  intros Hi Hden. unfold rachford_rice_term, d_rachford_rice_term.
  rewrite (getitem_nth z i 0 Hi), (getitem_nth K i 0) by lia.
  cbn [bind_result pow2 add mul neg sub of_int div R_Number Exact.square].
  fold (denominator K V i). rewrite Hden. unfold Exact.truediv.
  split.
  - destruct (Req_dec_T 0 0) as [_|N]; [reflexivity | now destruct N].
  - destruct (Req_dec_T (0 * 0) 0) as [_|N]; [reflexivity | destruct N; ring].
Qed.

Lemma rachford_rice_term_cases (i : nat) :
  (i < List.length z)%nat ->
  ((exists t : R, rachford_rice_term z K V i = inr t)
   \/ rachford_rice_term z K V i = inl ZeroDivisionError)
  /\ ((exists t : R, d_rachford_rice_term z K V i = inr t)
      \/ d_rachford_rice_term z K V i = inl ZeroDivisionError).
Proof.
  intros Hi. destruct (Req_dec_T (denominator K V i) 0) as [Hden|Hden].
  - destruct (rachford_rice_term_vanishing i Hi Hden) as [H1 H2]. now split; right.
  - split; left; eexists.
    + now apply rachford_rice_term_R.
    + now apply d_rachford_rice_term_R.
Qed.

Lemma rachford_rice_vanishing :
  (exists i : nat, (i < List.length z)%nat /\ denominator K V i = 0) ->
  rachford_rice z K V = inl ZeroDivisionError
  /\ d_rachford_rice z K V = inl ZeroDivisionError.
Proof.
  intros (i & Hi & Hden).
  destruct (rachford_rice_term_vanishing i Hi Hden) as [H1 H2].
  unfold rachford_rice, d_rachford_rice, sum_range. split; apply sum_from_raises.
  - intros j Hj. apply in_seq in Hj. apply rachford_rice_term_cases. lia.
  - exists i. split; [apply in_seq; lia | exact H1].
  - intros j Hj. apply in_seq in Hj. apply rachford_rice_term_cases. lia.
  - exists i. split; [apply in_seq; lia | exact H2].
Qed.

End ModelEdges.

(** The same edge in binary64, where a denominator vanishes when it is
    computed as zero. *)
Section VanishingInBinary64.
Variables (z K : list float) (V : float).
Hypothesis lengths : List.length z = List.length K.

Lemma float_zero (d : float) :
  PrimFloat.eqb d 0 = true -> exists sign : bool, Prim2SF d = S754_zero sign.
Proof.
  rewrite FloatAxioms.eqb_spec. change (Prim2SF 0) with (S754_zero false).
  destruct (Prim2SF d) as [s|s| |s m e]; unfold SFeqb, SFcompare.
  - intros _. now exists s.
  - destruct s; discriminate.
  - discriminate.
  - destruct s; discriminate.
Qed.

Lemma square_of_zero (d : float) :
  PrimFloat.eqb d 0 = true ->
  exists q : float, Float64.square d = inr q /\ PrimFloat.eqb q 0 = true.
Proof.
  intros Hd. destruct (float_zero d Hd) as [s Hs].
  assert (Hq : Prim2SF (d * d) = S754_zero false).
  { rewrite FloatAxioms.mul_spec, Hs. unfold SF64mul, SFmul. now destruct s. }
  exists (d * d)%float. unfold Float64.square. split.
  - replace (PrimFloat.is_infinity (d * d)) with false; [now rewrite andb_false_r|].
    unfold PrimFloat.is_infinity.
    rewrite FloatAxioms.eqb_spec, FloatAxioms.abs_spec, Hq. reflexivity.
  - rewrite FloatAxioms.eqb_spec, Hq. reflexivity.
Qed.

Lemma rachford_rice_term_binary64 (i : nat) :
  (i < List.length z)%nat ->
  rachford_rice_term z K V i
  = if PrimFloat.eqb (rounded_denominator K V i) 0 then inl ZeroDivisionError
    else inr (PrimFloat.div (mul (nth i z 0%float) (sub (nth i K 0%float) (of_int 1)))
                (rounded_denominator K V i)).
Proof.
  intros Hi. unfold rachford_rice_term.
  rewrite (getitem_nth z i 0%float Hi).
  rewrite (getitem_nth K i 0%float) by (rewrite <- lengths; exact Hi).
  reflexivity.
Qed.

Lemma d_rachford_rice_term_vanishing_binary64 (i : nat) :
  (i < List.length z)%nat ->
  PrimFloat.eqb (rounded_denominator K V i) 0 = true ->
  d_rachford_rice_term z K V i = inl ZeroDivisionError
  \/ d_rachford_rice_term z K V i = inl OverflowError.
Proof.
  intros Hi Hden. unfold d_rachford_rice_term.
  rewrite (getitem_nth z i 0%float Hi).
  rewrite (getitem_nth K i 0%float) by (rewrite <- lengths; exact Hi).
  cbn [bind_result].
  destruct (pow2 (sub (nth i K 0%float) (of_int 1))) as [e|p] eqn:Hp.
  { cbn [pow2 float_Number] in Hp. unfold Float64.square in Hp.
    destruct (_ && _)%bool in Hp; [|discriminate]. injection Hp as <-. now right. }
  cbn [bind_result]. fold (rounded_denominator K V i).
  destruct (square_of_zero _ Hden) as (q & Hq & Hq0).
  cbn [pow2 float_Number]. rewrite Hq. cbn [bind_result div float_Number].
  unfold Float64.truediv. change PrimFloat.zero with 0%float. rewrite Hq0. now left.
Qed.

Lemma vanishing_in_binary64 :
  (exists i : nat, (i < List.length z)%nat
     /\ PrimFloat.eqb (rounded_denominator K V i) 0 = true) ->
  rachford_rice z K V = inl ZeroDivisionError
  /\ (d_rachford_rice z K V = inl ZeroDivisionError
      \/ d_rachford_rice z K V = inl OverflowError).
Proof.
  intros (i & Hi & Hden). split.
  - unfold rachford_rice, sum_range. apply sum_from_raises.
    + intros j Hj. apply in_seq in Hj.
      rewrite rachford_rice_term_binary64 by lia.
      destruct (PrimFloat.eqb (rounded_denominator K V j) 0); [now right|].
      left. now eexists.
    + exists i. split; [apply in_seq; lia|].
      rewrite rachford_rice_term_binary64 by exact Hi. now rewrite Hden.
  - assert (Hraises : exists e : exn, d_rachford_rice z K V = inl e).
    { unfold d_rachford_rice, sum_range. apply sum_from_some_raises.
      destruct (d_rachford_rice_term_vanishing_binary64 i Hi Hden) as [H|H];
        eexists i, _; (split; [apply in_seq; lia | exact H]). }
    destruct Hraises as [e He]. rewrite He.
    assert (Hkind : match d_rachford_rice z K V with
                    | inr _ => True
                    | inl e => e = ZeroDivisionError \/ e = OverflowError
                    end).
    { unfold d_rachford_rice, sum_range.
      apply (sum_from_outcome (fun _ : float => True)
               (fun e : exn => e = ZeroDivisionError \/ e = OverflowError));
        [trivial | trivial |].
      intros j Hj. apply in_seq in Hj. unfold d_rachford_rice_term.
      rewrite (getitem_nth z j 0%float) by lia.
      rewrite (getitem_nth K j 0%float) by lia.
      cbn [bind_result pow2 div float_Number].
      unfold Float64.square, Float64.truediv.
      repeat (match goal with
              | |- context [if ?b then _ else _] => destruct b
              end; cbn [bind_result]); auto. }
    rewrite He in Hkind. destruct Hkind as [-> | ->]; [now left | now right].
Qed.

End VanishingInBinary64.

(** X10. In binary64, for [z] and [K] of one length, a [V] at which some
    denominator [1 + V * (K_i - 1)] is computed as zero makes
    [rachford_rice] raise [ZeroDivisionError] and [d_rachford_rice] raise
    [ZeroDivisionError] or, when a square overflows first, [OverflowError];
    the solver started there raises [ZeroDivisionError] before it calls
    [dfunc]. *)
Theorem vanishing_denominator_raises_in_binary64 {W : Type}
    (z K : list float) (V : float) (dfunc : callable (T:=float) (W:=W))
    (tol : option float) (max_iter : Z) (w : W) :
  List.length z = List.length K ->
  (exists i : nat, (i < List.length z)%nat
     /\ PrimFloat.eqb (rounded_denominator K V i) 0 = true) ->
  (0 < max_iter)%Z ->
  rachford_rice z K V = inl ZeroDivisionError
  /\ (d_rachford_rice z K V = inl ZeroDivisionError
      \/ d_rachford_rice z K V = inl OverflowError)
  /\ newton_raphson (pure_callable (rachford_rice z K)) dfunc V tol (Some max_iter) w
     = (inl ZeroDivisionError, w).
Proof.
  intros Hlen Hden Hn.
  destruct (vanishing_in_binary64 z K V Hlen Hden) as [H1 H2].
  repeat split; auto.
  unfold newton_raphson.
  replace (Z.to_nat max_iter) with (S (Z.to_nat max_iter - 1)) by lia.
  apply loop_func_raises. unfold pure_callable, lift. now rewrite H1.
Qed.

(** [z = [1; 1]], [K = [1e200; 2]] at [V = -1]: the second denominator is
    zero and the first square overflows. *)
Lemma zero_division_and_overflow_in_binary64 :
  rachford_rice [1; 1]%float [1e200; 2]%float (-1)%float = inl ZeroDivisionError
  /\ (d_rachford_rice [1; 1]%float [1e200; 2]%float (-1)%float = inl ZeroDivisionError
      \/ d_rachford_rice [1; 1]%float [1e200; 2]%float (-1)%float = inl OverflowError)
  /\ newton_raphson (pure_callable (rachford_rice [1; 1]%float [1e200; 2]%float))
       (traced Called_dfunc (d_rachford_rice [1; 1]%float [1e200; 2]%float))
       (-1)%float None (Some 100%Z) []
     = (inl ZeroDivisionError, []).
Proof.
  apply (vanishing_denominator_raises_in_binary64 [1; 1]%float [1e200; 2]%float
           (-1)%float).
  - reflexivity.
  - exists 1%nat. split; [cbn; lia | reflexivity].
  - lia.
Defined.

Section NoSplit.
Local Open Scope R_scope.

Lemma fold_left_Rplus_zero (t : nat -> R) (l : list nat) (a : R) :
  (forall i : nat, In i l -> t i = 0) ->
  fold_left Rplus (map t l) a = a.
Proof.
  revert a. induction l as [|i l IH]; intros a Ht; cbn [map fold_left].
  - reflexivity.
  - rewrite IH by (intros j Hj; apply Ht; now right).
    rewrite (Ht i) by now left. ring.
Qed.

Lemma no_split_values (z K : list R) (V : R) :
  List.length z = List.length K ->
  (forall i : nat, (i < List.length z)%nat -> nth i K 0 = 1) ->
  rachford_rice z K V = inr 0 /\ d_rachford_rice z K V = inr 0.
Proof.
  intros Hlen HK.
  assert (Hden : forall i : nat, (i < List.length z)%nat -> denominator K V i <> 0).
  { intros i Hi. unfold denominator. rewrite (HK i Hi). lra. }
  rewrite (rachford_rice_R z K V Hlen Hden), (d_rachford_rice_R z K V Hlen Hden).
  split; f_equal.
  - unfold objective. apply fold_left_Rplus_zero. intros i Hi. apply in_seq in Hi.
    unfold objective_term. rewrite (HK i) by lia. unfold Rdiv. ring.
  - unfold objective_derivative. apply fold_left_Rplus_zero. intros i Hi.
    apply in_seq in Hi. unfold objective_derivative_term.
    rewrite (HK i) by lia. unfold Rdiv. ring.
Qed.

End NoSplit.

(** X11. Over the reals, a feed whose ratios [K_i] are all [1] (the empty
    feed included) has the objective and its derivative equal to [0]
    everywhere, so the solver fails on the small derivative from every
    start, for every [max_iter > 0]. *)
Theorem feed_without_split_fails_on_derivative {W : Type}
    (z K : list R) (V0 : R) (tol : option R) (max_iter : Z) (w : W) :
  List.length z = List.length K ->
  (forall i : nat, (i < List.length z)%nat -> nth i K 0%R = 1%R) ->
  (0 < max_iter)%Z ->
  rachford_rice z K V0 = inr 0%R
  /\ d_rachford_rice z K V0 = inr 0%R
  /\ newton_raphson (pure_callable (rachford_rice z K))
       (pure_callable (d_rachford_rice z K)) V0 tol (Some max_iter) w
     = (inl DerivativeTooSmall, w).
Proof.
  intros Hlen HK Hn. destruct (no_split_values z K V0 Hlen HK) as [H1 H2].
  repeat split; auto. unfold newton_raphson.
  replace (Z.to_nat max_iter) with (S (Z.to_nat max_iter - 1)) by lia.
  apply loop_guard with (f_x := 0%R) (w1 := w) (df_x := 0%R).
  - unfold pure_callable, lift. now rewrite H1.
  - unfold pure_callable, lift. now rewrite H2.
  - apply ltb_R_true. destruct real_literals as (Hfloor & _). rewrite Hfloor.
    cbn [abs R_Number]. rewrite Rabs_R0. lra.
Qed.

(** The module's [z] with all ratios equal to [1]. *)
Lemma module_feed_without_split :
  rachford_rice z [1; 1; 1; 1]%R 0%R = inr 0%R
  /\ d_rachford_rice z [1; 1; 1; 1]%R 0%R = inr 0%R
  /\ newton_raphson (pure_callable (rachford_rice z [1; 1; 1; 1]%R))
       (pure_callable (d_rachford_rice z [1; 1; 1; 1]%R)) 0%R None (Some 100%Z) tt
     = (inl DerivativeTooSmall, tt).
Proof.
  apply (feed_without_split_fails_on_derivative z [1; 1; 1; 1]%R 0%R None 100 tt).
  - reflexivity.
  - intros i Hi. destruct i as [|[|[|[|i]]]]; cbn [nth]; try reflexivity.
    cbn in Hi. lia.
  - lia.
Defined.

(** ** The script *)


(** X16. Over the reals, for [z] and [K] of one length and a start [V0]
    at which some denominator vanishes, the script is left by
    [ZeroDivisionError], which its [except ValueError] does not catch. *)
Theorem script_lets_zero_division_escape (z K : list R) (V0 : R)
    (out : list (output R)) :
  List.length z = List.length K ->
  (exists i : nat, (i < List.length z)%nat /\ denominator K V0 i = 0%R) ->
  script z K V0 out = (inl ZeroDivisionError, out).
Proof.
  intros Hlen Hden. unfold script, newton_raphson.
  change (Z.to_nat max_iter_default) with (S 99).
  destruct (rachford_rice_vanishing z K V0 Hlen Hden) as [H1 _].
  rewrite (loop_func_raises (pure_callable (rachford_rice z K)) _ _ _ 99 V0 out
             ZeroDivisionError out); [reflexivity|].
  unfold pure_callable, lift. now rewrite H1.
Qed.

(** [z = [1]], [K = [2]] from [V0 = -1]. *)
Lemma script_escape_at_minus_one :
  script [1%R] [2%R] (-1)%R [] = (inl ZeroDivisionError, []).
Proof.
  apply (script_lets_zero_division_escape [1%R] [2%R] (-1)%R []).
  - reflexivity.
  - exists 0%nat. split; [cbn; lia|]. unfold denominator. cbn [nth]. lra.
Defined.
